(** * ucp.public_api: the process-wide UCX application context

    A shallow embedding of [src/ucp/public_api.py].  The module keeps one
    global, [_ctx], and every public function either reads it, rebinds it,
    or delegates to the [ApplicationContext] object it refers to.  Python
    functions become computations in a state-and-exception monad over the
    process state; the caller's [options] dict is an object in a store,
    passed by reference, so that the in-place [del options[k]] of [init] is
    visible to the caller as it is in Python. *)

From stdpp Require Import gmap strings list fin_maps.
From Stdlib Require Import ZArith.

Abbreviation dict := (gmap string string).

(** References to dict objects. *)
Abbreviation loc := nat.

(** ** Exceptions and outcomes *)

Inductive exn :=
| RuntimeError (msg : string)
| KeyError (key : string)
| BindError (port : Z).

Inductive outcome (A : Type) :=
| Return (a : A)
| Raise (e : exn).
Arguments Return {A} a.
Arguments Raise {A} e.

Definition is_raise {A} (r : outcome A) : bool :=
  match r with Raise _ => true | Return _ => false end.

(** ** The objects of [ucp._libs.core] *)

(** Modelled from the spec: the class [ApplicationContext] of
    [ucp._libs.core], which the module imports.  A Context owns one Worker,
    identified by a number that is also the handle returned for interop, and
    the options mapping it was constructed with; the environment read by the
    engine at construction is recorded next to it. *)
Record Context := {
  ctx_id : nat;
  ctx_options : dict;
  ctx_environ : dict;
}.

(** Modelled from the spec: the completion slot of a Pending Operation. *)
Inductive slot :=
| Pending
| Completed (ep : nat)
| Failed
| Cancelled.

(** Modelled from the spec: one in-flight outbound connect. *)
Record PendingOp := {
  op_ctx : nat;
  op_ip : string;
  op_port : Z;
  op_slot : slot;
}.

(** Modelled from the spec: a Listener with its bound port, its accept
    callback (by identity) and its liveness flag. *)
Record Listener := {
  lst_ctx : nat;
  lst_port : Z;
  lst_callback : nat;
  lst_live : bool;
}.

(** Modelled from the spec: an Endpoint, outbound ones carry the remote
    address. *)
Record Endpoint := {
  ep_ctx : nat;
  ep_remote : option (string * Z);
  ep_open : bool;
}.

(** Modelled from the spec: what the native engine reports during one
    progress step, a finished connect or an incoming connection. *)
Inductive native_event :=
| ConnectDone (op : nat) (ok : bool)
| Incoming (port : Z).

(** Modelled from the spec: the state of the wrapped engine.  [created]
    counts the Contexts constructed so far and supplies fresh identities;
    [workers] lists the Workers that are not released; [peak] is a history
    variable, the largest number of Workers that were ever live together;
    [wire] is what the network will report on each coming progress step.
    No function of the module releases a Worker or closes a Listener or an
    Endpoint.  What the runtime and the engine do with a Context that
    nothing refers to any more is not part of the model: a Context that
    was constructed is taken to stay referenced, by the caller that got it
    from [_get_ctx], by a Listener the caller holds or by a connect that is
    waiting. *)
Record engine := {
  created : nat;
  workers : list nat;
  peak : nat;
  pending : list PendingOp;
  listeners : list Listener;
  endpoints : list Endpoint;
  accepts : list (nat * nat);
  wire : list (list native_event);
}.

(** ** The process state *)

Record process := {
  _ctx : option Context;
  environ : dict;
  heap : gmap nat dict;
  ucx : engine;
}.

Definition set__ctx (v : option Context) (p : process) : process :=
  {| _ctx := v; environ := environ p; heap := heap p; ucx := ucx p |}.

Definition set_heap (h : gmap nat dict) (p : process) : process :=
  {| _ctx := _ctx p; environ := environ p; heap := h; ucx := ucx p |}.

Definition set_ucx (e : engine) (p : process) : process :=
  {| _ctx := _ctx p; environ := environ p; heap := heap p; ucx := e |}.

(** ** The monad of Python computations *)

Definition M (A : Type) : Type := process -> outcome A * process.

Definition ret {A} (a : A) : M A := fun p => (Return a, p).

Definition raise {A} (e : exn) : M A := fun p => (Raise e, p).

Definition bind {A B} (m : M A) (k : A -> M B) : M B := fun p =>
  match m p with
  | (Return a, p') => k a p'
  | (Raise e, p') => (Raise e, p')
  end.

Declare Scope py_scope.
Delimit Scope py_scope with py.
Bind Scope py_scope with M.
Notation "'let*' x ':=' m 'in' k" := (bind m (fun x => k))
  (at level 10, x name, m at level 100, k at level 200) : py_scope.
Notation "m '>>' k" := (bind m (fun _ => k))
  (at level 100, k at level 200, right associativity) : py_scope.
Open Scope py_scope.

(** [for x in xs: body x] *)
Fixpoint for_each {A} (xs : list A) (body : A -> M unit) : M unit :=
  match xs with
  | [] => ret tt
  | x :: xs' => body x >> for_each xs' body
  end.

(** ** The engine behind [ucp._libs.core] *)

Definition set_pending (ops : list PendingOp) (e : engine) : engine :=
  {| created := created e; workers := workers e; peak := peak e;
     pending := ops; listeners := listeners e; endpoints := endpoints e;
     accepts := accepts e; wire := wire e |}.

Definition set_listeners (ls : list Listener) (e : engine) : engine :=
  {| created := created e; workers := workers e; peak := peak e;
     pending := pending e; listeners := ls; endpoints := endpoints e;
     accepts := accepts e; wire := wire e |}.

Definition set_endpoints (eps : list Endpoint) (e : engine) : engine :=
  {| created := created e; workers := workers e; peak := peak e;
     pending := pending e; listeners := listeners e; endpoints := eps;
     accepts := accepts e; wire := wire e |}.

Definition set_accepts (acc : list (nat * nat)) (e : engine) : engine :=
  {| created := created e; workers := workers e; peak := peak e;
     pending := pending e; listeners := listeners e;
     endpoints := endpoints e; accepts := acc; wire := wire e |}.

Definition set_wire (w : list (list native_event)) (e : engine) : engine :=
  {| created := created e; workers := workers e; peak := peak e;
     pending := pending e; listeners := listeners e;
     endpoints := endpoints e; accepts := accepts e; wire := w |}.

(** Modelled from the spec: constructing a Context constructs its Worker.
    The new Worker gets the next unused identity and joins the live ones;
    construction itself never fails (the spec lists no such error). *)
Definition worker_create (config_dict env : dict) (e : engine)
  : Context * engine :=
  let ws := created e :: workers e in
  ({| ctx_id := created e; ctx_options := config_dict; ctx_environ := env |},
   {| created := S (created e); workers := ws;
      peak := Nat.max (peak e) (length ws);
      pending := pending e; listeners := listeners e;
      endpoints := endpoints e; accepts := accepts e; wire := wire e |}).

Definition with_slot (s : slot) (o : PendingOp) : PendingOp :=
  {| op_ctx := op_ctx o; op_ip := op_ip o; op_port := op_port o;
     op_slot := s |}.

(** Modelled from the spec: registration of an outbound connect creates one
    Pending Operation and hands back its identity without blocking. *)
Definition register_connect (c : nat) (ip : string) (port : Z) (e : engine)
  : nat * engine :=
  (length (pending e),
   set_pending (pending e ++ [{| op_ctx := c; op_ip := ip; op_port := port;
                                 op_slot := Pending |}]) e).

Definition port_bound (e : engine) (p : Z) : bool :=
  existsb (fun l => lst_live l && Z.eqb (lst_port l) p) (listeners e).

Definition free_port (e : engine) : Z :=
  Z.succ (foldr Z.max 1023%Z (map lst_port (listeners e))).

(** Modelled from the spec: a Listener binds at creation, to the given port
    or to one the engine chooses, and fails with BindError when the port is
    invalid or in use. *)
Definition bind_listener (c callback : nat) (port : option Z) (e : engine)
  : outcome nat * engine :=
  let p := match port with Some p => p | None => free_port e end in
  if (0 <? p)%Z && (p <=? 65535)%Z && negb (port_bound e p)
  then (Return (length (listeners e)),
        set_listeners (listeners e ++ [{| lst_ctx := c; lst_port := p;
                                          lst_callback := callback;
                                          lst_live := true |}]) e)
  else (Raise (BindError p), e).

(** Modelled from the spec: one native event seen by the progress step of
    Worker [c].  A completed connect settles the matching Pending Operation
    once, and only while it is pending; an incoming connection on a live
    Listener delivers a new Endpoint to its callback.  The boolean tells
    whether a unit of work was done. *)
Definition handle_event (c : nat) (ev : native_event) (e : engine)
  : bool * engine :=
  match ev with
  | ConnectDone i ok =>
      match pending e !! i with
      | Some o =>
          match op_slot o with
          | Pending =>
              if Nat.eqb (op_ctx o) c then
                if ok then
                  let ep := length (endpoints e) in
                  (true,
                   set_pending (<[i := with_slot (Completed ep) o]> (pending e))
                     (set_endpoints
                        (endpoints e ++
                           [{| ep_ctx := c;
                               ep_remote := Some (op_ip o, op_port o);
                               ep_open := true |}]) e))
                else
                  (true,
                   set_pending (<[i := with_slot Failed o]> (pending e)) e)
              else (false, e)
          | _ => (false, e)
          end
      | None => (false, e)
      end
  | Incoming port =>
      match List.find (fun l => lst_live l && Nat.eqb (lst_ctx l) c
                                && Z.eqb (lst_port l) port) (listeners e) with
      | Some l =>
          let ep := length (endpoints e) in
          (true,
           set_accepts (accepts e ++ [(lst_callback l, ep)])
             (set_endpoints
                (endpoints e ++
                   [{| ep_ctx := c; ep_remote := None; ep_open := true |}]) e))
      | None => (false, e)
      end
  end.

Fixpoint handle_events (c : nat) (evs : list native_event) (e : engine)
  : bool * engine :=
  match evs with
  | [] => (false, e)
  | ev :: evs' =>
      let '(b, e1) := handle_event c ev e in
      let '(b', e2) := handle_events c evs' e1 in
      (b || b', e2)
  end.

(** Modelled from the spec: one progress step takes what the network has
    ready (nothing, when [wire] is exhausted) and handles it. *)
Definition worker_progress (c : nat) (e : engine) : bool * engine :=
  match wire e with
  | [] => (false, e)
  | evs :: w => handle_events c evs (set_wire w e)
  end.

(** ** Python primitives *)

Definition deref (h : gmap nat dict) (l : loc) : dict := default ∅ (h !! l).

(** [k in d] *)
Definition dict_contains (d : loc) (k : string) : M bool := fun p =>
  (Return (bool_decide (is_Some (deref (heap p) d !! k))), p).

(** [del d[k]] *)
Definition dict_delitem (d : loc) (k : string) : M unit := fun p =>
  match deref (heap p) d !! k with
  | Some _ => (Return tt, set_heap (<[d := delete k (deref (heap p) d)]> (heap p)) p)
  | None => (Raise (KeyError k), p)
  end.

(** [os.environ.keys()] *)
Definition os_environ_keys : M (list string) := fun p =>
  (Return (map_to_list (environ p)).*1, p).

(** Reading the module global. *)
Definition load__ctx : M (option Context) := fun p => (Return (_ctx p), p).

(** [_ctx = v]: the global is rebound.  Nothing is called on the object it
    referred to before. *)
Definition store__ctx (v : option Context) : M unit := fun p =>
  (Return tt, set__ctx v p).

Section public_api.

(** The configuration the engine computes from the environment and an
    options mapping.  The engine is a native library: its option names and
    defaults are a parameter here. *)
Variable ucx_config : dict -> dict -> dict.

(** ** [ucp._libs.core] as seen from the module *)

(** Modelled from the spec: the constructor [core.ApplicationContext] and
    the methods of the object.  [core.ApplicationContext(config_dict)] reads
    the dict it is given and constructs the Worker; without an argument the
    options are empty. *)
Definition ApplicationContext (config_dict : option loc) : M Context := fun p =>
  let cfg := match config_dict with
             | Some l => deref (heap p) l
             | None => ∅
             end in
  let '(c, e) := worker_create cfg (environ p) (ucx p) in
  (Return c, set_ucx e p).

Definition ctx_create_listener (c : Context) (callback_func : nat)
    (port : option Z) : M nat := fun p =>
  let '(r, e) := bind_listener (ctx_id c) callback_func port (ucx p) in
  (r, set_ucx e p).

Definition ctx_create_endpoint (c : Context) (ip_address : string) (port : Z)
  : M nat := fun p =>
  let '(i, e) := register_connect (ctx_id c) ip_address port (ucx p) in
  (Return i, set_ucx e p).

Definition ctx_progress (c : Context) : M bool := fun p =>
  let '(b, e) := worker_progress (ctx_id c) (ucx p) in
  (Return b, set_ucx e p).

Definition ctx_get_ucp_worker (c : Context) : M nat := ret (ctx_id c).

Definition ctx_get_config (c : Context) : M dict :=
  ret (ucx_config (ctx_environ c) (ctx_options c)).

(** Modelled from the spec: [core.get_config()], the static query; what the
    engine would use were it initialised now without options. *)
Definition core_get_config : M dict := fun p =>
  (Return (ucx_config (environ p) ∅), p).

(** ** The module *)

Definition _get_ctx : M Context :=
  let* g := load__ctx in
  match g with
  | None =>
      let* c := ApplicationContext None in
      store__ctx (Some c) >>
      ret c
  | Some c => ret c
  end.

Definition already_initiated : string :=
  "UCX is already initiated. Call reset() and init() in order to re-initate UCX with new options.".

(** [options] is a reference to the caller's dict; a call without it
    passes a reference to the one dict the [def] created as default. *)
Definition init (options : loc) (env_takes_precedence : bool) : M unit :=
  let* g := load__ctx in
  match g with
  | Some _ => raise (RuntimeError already_initiated)
  | None =>
      (if env_takes_precedence then
         let* ks := os_environ_keys in
         for_each ks (fun k =>
           let* b := dict_contains options k in
           if b then dict_delitem options k else ret tt)
       else ret tt) >>
      let* c := ApplicationContext (Some options) in
      store__ctx (Some c)
  end.

Definition create_listener (callback_func : nat) (port : option Z) : M nat :=
  let* c := _get_ctx in
  ctx_create_listener c callback_func port.

(** The coroutine, run up to the point where it waits on the connect. *)
Definition create_endpoint (ip_address : string) (port : Z) : M nat :=
  let* c := _get_ctx in
  ctx_create_endpoint c ip_address port.

Definition progress : M bool :=
  let* c := _get_ctx in
  ctx_progress c.

Definition get_ucp_worker : M nat :=
  let* c := _get_ctx in
  ctx_get_ucp_worker c.

Definition get_config : M dict :=
  let* g := load__ctx in
  match g with
  | None => core_get_config
  | Some _ =>
      let* c := _get_ctx in
      ctx_get_config c
  end.

Definition reset : M unit := store__ctx None.

(** ** Call sequences *)

(** One call of the caller into the module; [GetCtx] is the implicit
    first-use accessor [_get_ctx], and [CreateEndpoint] is the coroutine of
    [create_endpoint] run to its first wait. *)
Inductive call :=
| Init (options : loc) (env_takes_precedence : bool)
| GetCtx
| CreateListener (callback_func : nat) (port : option Z)
| CreateEndpoint (ip_address : string) (port : Z)
| Progress
| GetUcpWorker
| GetConfig
| Reset.

Inductive value :=
| VNone
| VContext (c : Context)
| VHandle (n : nat)
| VBool (b : bool)
| VDict (d : dict).

Definition run_call (c : call) : M value :=
  match c with
  | Init options etp => init options etp >> ret VNone
  | GetCtx => let* c := _get_ctx in ret (VContext c)
  | CreateListener cb port => let* l := create_listener cb port in ret (VHandle l)
  | CreateEndpoint ip port => let* f := create_endpoint ip port in ret (VHandle f)
  | Progress => let* b := progress in ret (VBool b)
  | GetUcpWorker => let* w := get_ucp_worker in ret (VHandle w)
  | GetConfig => let* d := get_config in ret (VDict d)
  | Reset => reset >> ret VNone
  end.

(** The caller goes on after a call that raised: the state is the one left
    at the raise. *)
Fixpoint run (cs : list call) (p : process) : process :=
  match cs with
  | [] => p
  | c :: cs' => run cs' (run_call c p).2
  end.

End public_api.

(** [create_endpoint(ip_address, port)], the call alone: the function is
    [async def], so the call runs nothing of the body and hands back the
    coroutine, here the computation that [create_endpoint] is. *)
Definition create_endpoint_call (ip_address : string) (port : Z)
  : M (M nat) :=
  ret (create_endpoint ip_address port).

(** The process right after the module is imported: no Context, no Worker,
    nothing registered with the engine. *)
Definition boot (env : dict) (h : gmap nat dict)
    (net : list (list native_event)) : process :=
  {| _ctx := None; environ := env; heap := h;
     ucx := {| created := 0; workers := []; peak := 0; pending := [];
               listeners := []; endpoints := []; accepts := [];
               wire := net |} |}.

(** The keys of [d] that the loop of [init] over [ks] leaves in place. *)
Definition drop_keys (ks : list string) (d : dict) : dict :=
  foldl (fun d k => delete k d) d ks.


Definition slot_at (e : engine) (i : nat) : option slot :=
  op_slot <$> pending e !! i.



(** The Context built by a construction in state [p] from options [cfg]. *)
Definition built (cfg : dict) (p : process) : Context :=
  {| ctx_id := created (ucx p); ctx_options := cfg; ctx_environ := environ p |}.

(** A caller whose options share the key ["A"] with the environment. *)
Definition overlap : process :=
  boot {["A" := "2"]} {[0 := {["A" := "1"; "B" := "3"]}]} [].

(** Operations on a live Worker neither construct nor release one. *)
Definition same_workers (e e' : engine) : Prop :=
  workers e' = workers e /\ peak e' = peak e /\ created e' = created e.

(** A settled completion slot stays as it is. *)
Definition settled_stable (e e' : engine) : Prop :=
  forall i o, pending e !! i = Some o -> op_slot o <> Pending ->
              pending e' !! i = Some o.


(** How one call changes the Context and the live Workers: it keeps both,
    or it constructs a Worker while [_ctx] is [None], or it drops the
    Context from [_ctx] and keeps the Workers. *)
Definition step_kind (p p' : process) : Prop :=
  settled_stable (ucx p) (ucx p')
  /\ ((_ctx p' = _ctx p /\ same_workers (ucx p) (ucx p'))
      \/ (_ctx p = None
          /\ exists c, _ctx p' = Some c /\ ctx_id c = created (ucx p)
             /\ workers (ucx p') = ctx_id c :: workers (ucx p)
             /\ peak (ucx p')
                = Nat.max (peak (ucx p)) (S (length (workers (ucx p))))
             /\ created (ucx p') = S (created (ucx p)))
      \/ (_ctx p' = None
          /\ exists c, _ctx p = Some c /\ same_workers (ucx p) (ucx p'))).

(** A call handed on to the live Context keeps it and its Worker. *)
Definition delegated (p p' : process) : Prop :=
  _ctx p' = _ctx p /\ same_workers (ucx p) (ucx p')
  /\ settled_stable (ucx p) (ucx p').

(** An engine whose configuration is the options over the environment. *)
Definition union_config : dict -> dict -> dict := fun env opts => opts ∪ env.

(** A live Context with two outbound connects pending. *)
Definition two_pending : process :=
  run union_config
    [Init 0 false; CreateEndpoint "10.0.0.1" 9000; CreateEndpoint "10.0.0.2" 9000]
    (boot ∅ ∅ []).




(** A network that reports the first connect as established on the first
    progress step, and again, with a failure of the second, on the next. *)
Definition eager_net : list (list native_event) :=
  [[ConnectDone 0 true]; [ConnectDone 0 true; ConnectDone 1 false]].

(** The calls that reach the Context through [_get_ctx]. *)
Definition uses_ctx (c : call) : bool :=
  match c with
  | GetCtx | CreateListener _ _ | CreateEndpoint _ _ | Progress
  | GetUcpWorker => true
  | Init _ _ | GetConfig | Reset => false
  end.

Definition is_reset (c : call) : bool :=
  match c with Reset => true | _ => false end.

(** The number of calls of [reset] in a sequence. *)
Definition count_resets (cs : list call) : nat :=
  length (List.filter is_reset cs).

(** The one call that deletes from a dict of the caller. *)
Definition deletes_keys (c : call) : bool :=
  match c with Init _ true => true | _ => false end.

(** The Contexts constructed so far, plus one while none is live. *)
Definition construction_budget (p : process) : nat :=
  created (ucx p) + match _ctx p with Some _ => 0 | None => 1 end.

(** * Properties *)

(** ** Records and the monad *)

Lemma set_heap_id (p : process) : set_heap (heap p) p = p.
Proof. by destruct p. Qed.

Lemma set__ctx_id (p : process) : set__ctx (_ctx p) p = p.
Proof. by destruct p. Qed.

(** ** The key-deletion loop of [init] *)

Lemma drop_keys_lookup (ks : list string) (d : dict) (k : string) :
  drop_keys ks d !! k = if decide (k ∈ ks) then None else d !! k.
Proof.
  revert d. induction ks as [|k' ks IH]; intros d; simpl.
  - destruct (decide (k ∈ [])) as [H|H]; [by apply elem_of_nil in H | done].
  - rewrite IH. destruct (decide (k = k')) as [->|Hne].
    + rewrite lookup_delete_eq.
      rewrite (decide_True (P := k' ∈ k' :: ks)) by left.
      by destruct (decide (k' ∈ ks)).
    + rewrite lookup_delete_ne by done.
      destruct (decide (k ∈ ks)) as [Hin|Hin].
      * by rewrite (decide_True (P := k ∈ k' :: ks)) by (by right).
      * rewrite (decide_False (P := k ∈ k' :: ks)); [done|].
        intros [?|?]%elem_of_cons; done.
Qed.

Lemma drop_keys_environ (env d : dict) :
  drop_keys (map_to_list env).*1 d = d ∖ env.
Proof.
  apply map_eq; intros k.
  rewrite drop_keys_lookup, lookup_difference.
  destruct (env !! k) as [v|] eqn:Hk.
  - rewrite decide_True; [done|].
    apply list_elem_of_fmap. exists (k, v). split; [done|].
    by apply elem_of_map_to_list.
  - rewrite decide_False; [done|].
    intros [[k' v] [-> Hin]]%list_elem_of_fmap.
    apply elem_of_map_to_list in Hin. simpl in Hk. congruence.
Qed.

Lemma deref_insert_eq (h : gmap nat dict) (l : loc) (d : dict) :
  deref (<[l := d]> h) l = d.
Proof. unfold deref. by rewrite lookup_insert_eq. Qed.

Lemma init_loop (options : loc) (ks : list string) (p : process) :
  exists h',
    for_each ks (fun k =>
      let* b := dict_contains options k in
      if b then dict_delitem options k else ret tt) p
    = (Return tt, set_heap h' p)
    /\ deref h' options = drop_keys ks (deref (heap p) options)
    /\ (forall l, l <> options -> h' !! l = heap p !! l).
Proof.
  revert p. induction ks as [|k ks IH]; intros p; simpl.
  - exists (heap p). by rewrite set_heap_id.
  - unfold bind at 1. unfold bind at 1. unfold dict_contains at 1.
    destruct (deref (heap p) options !! k) as [v|] eqn:Hk.
    + rewrite bool_decide_true by eauto.
      unfold dict_delitem at 1. rewrite Hk.
      destruct (IH (set_heap (<[options := delete k (deref (heap p) options)]>
                               (heap p)) p))
        as (h' & Hrun & Hd & Hfr).
      exists h'. split; [exact Hrun|]. split.
      * rewrite Hd. simpl. by rewrite deref_insert_eq.
      * intros l Hl. rewrite Hfr by done. simpl.
        by rewrite lookup_insert_ne.
    + rewrite bool_decide_false by (by intros [? ?]).
      unfold ret at 1.
      destruct (IH p) as (h' & Hrun & Hd & Hfr).
      exists h'. split; [exact Hrun|]. split; [|done].
      rewrite Hd. f_equal. by rewrite delete_id.
Qed.

(** ** [init] and [_get_ctx] step by step *)

Lemma store__ctx_fresh (v : option Context) (p : process) :
  _ctx p = None -> store__ctx v p = (Return tt, set__ctx v p).
Proof. done. Qed.

Lemma init_live (options : loc) (etp : bool) (p : process) (c : Context) :
  _ctx p = Some c ->
  init options etp p = (Raise (RuntimeError already_initiated), p).
Proof. intros H. unfold init, bind, load__ctx. by rewrite H. Qed.

Lemma init_fresh (options : loc) (etp : bool) (p : process) :
  _ctx p = None ->
  exists h',
    init options etp p
    = (Return tt,
       set__ctx (Some (built (deref h' options) p))
         (set_ucx (worker_create (deref h' options) (environ p) (ucx p)).2
            (set_heap h' p)))
    /\ deref h' options
       = (if etp then deref (heap p) options ∖ environ p
          else deref (heap p) options)
    /\ (forall l, l <> options -> h' !! l = heap p !! l)
    /\ (etp = false -> h' = heap p).
Proof.
  intros Hnone. unfold init. unfold bind at 1. unfold load__ctx at 1.
  rewrite Hnone. destruct etp.
  - destruct (init_loop options (map_to_list (environ p)).*1 p)
      as (h' & Hrun & Hd & Hfr).
    exists h'. split; [|split; [|split]]; [| |done|done].
    + unfold bind at 1. unfold bind at 1. unfold os_environ_keys at 1.
      rewrite Hrun. unfold bind, ApplicationContext. simpl.
      by rewrite store__ctx_fresh.
    + by rewrite Hd, drop_keys_environ.
  - exists (heap p). split; [|done].
    unfold bind, ret, ApplicationContext. simpl.
    rewrite store__ctx_fresh by done. by rewrite set_heap_id.
Qed.

Lemma _get_ctx_live (p : process) (c : Context) :
  _ctx p = Some c -> _get_ctx p = (Return c, p).
Proof. intros H. unfold _get_ctx, bind, load__ctx. by rewrite H. Qed.

Lemma _get_ctx_fresh (p : process) :
  _ctx p = None ->
  _get_ctx p
  = (Return (built ∅ p),
     set__ctx (Some (built ∅ p))
       (set_ucx (worker_create ∅ (environ p) (ucx p)).2 p)).
Proof.
  intros H. unfold _get_ctx, bind, load__ctx. rewrite H.
  by unfold ApplicationContext, store__ctx, ret.
Qed.

Lemma reset_fresh (p : process) : _ctx p = None -> reset p = (Return tt, p).
Proof.
  intros H. unfold reset. rewrite store__ctx_fresh by done.
  by rewrite <- H, set__ctx_id.
Qed.

Lemma reset_rebinds (p : process) : reset p = (Return tt, set__ctx None p).
Proof. done. Qed.

(** ** The claims about [init] *)

(** C1.  Every call to [init] while a Context is live raises the
    already-initiated RuntimeError and leaves the state, hence the Context,
    as it was; every call while none is live returns normally and leaves a
    Context in [_ctx].  From a state without Context, [init(); init()]
    fails on the second call, and [init(); reset(); init()] succeeds on
    both calls of [init]. *)
Theorem init_active_fails_uninitialized_succeeds
    (options options2 : loc) (etp etp2 : bool) (p : process) :
  match _ctx p with
  | Some c =>
      init options etp p = (Raise (RuntimeError already_initiated), p)
  | None =>
      exists c p1,
        init options etp p = (Return tt, p1) /\ _ctx p1 = Some c
        /\ init options2 etp2 p1
           = (Raise (RuntimeError already_initiated), p1)
        /\ exists c' p2 p3,
             reset p1 = (Return tt, p2) /\ _ctx p2 = None
             /\ init options2 etp2 p2 = (Return tt, p3) /\ _ctx p3 = Some c'
  end.
Proof.
  destruct (_ctx p) as [c|] eqn:Hctx.
  - by apply init_live with c.
  - destruct (init_fresh options etp p Hctx) as (h1 & Hinit & _).
    eexists _, _. split; [exact Hinit|]. split; [done|]. split.
    { by eapply init_live. }
    set (p1 := set__ctx _ _) in *.
    pose proof (reset_rebinds p1) as Hreset.
    set (p2 := set__ctx None p1) in Hreset.
    assert (Hp2 : _ctx p2 = None) by done.
    destruct (init_fresh options2 etp2 p2 Hp2) as (h3 & Hinit3 & _).
    eexists _, p2, _. split; [exact Hreset|]. split; [done|].
    split; [exact Hinit3|done].
Qed.

(** C10.  A failing [init] is atomic: when a Context is live the call
    raises and the whole state (the global, every dict of the caller, the
    engine) is the one before the call; and whenever [init] raises at all,
    it is that error, a Context was live, and nothing has changed. *)
Theorem init_failure_is_atomic (options : loc) (etp : bool) (p : process) :
  (forall c, _ctx p = Some c ->
     init options etp p = (Raise (RuntimeError already_initiated), p))
  /\ (forall e p', init options etp p = (Raise e, p') ->
        e = RuntimeError already_initiated /\ is_Some (_ctx p)
        /\ p' = p /\ _ctx p' = _ctx p
        /\ deref (heap p') options = deref (heap p) options).
Proof.
  split.
  - intros c Hc. by apply init_live with c.
  - intros e p' Hraise. destruct (_ctx p) as [c|] eqn:Hctx.
    + rewrite (init_live _ _ _ c Hctx) in Hraise.
      injection Hraise as <- <-. rewrite Hctx. eauto.
    + destruct (init_fresh options etp p Hctx) as (h' & Hinit & _).
      rewrite Hinit in Hraise. discriminate.
Qed.

(** C2, as the code has it.  After [init(options, env_takes_precedence)]
    the caller's options mapping is the one before the call whenever
    [env_takes_precedence] is false or the call fails; when it is true and
    the call succeeds the mapping has been changed in place: it has lost
    exactly the keys that are also in the environment and kept the others.
    No other dict of the caller is touched, and the environment is not
    changed. *)
Theorem init_options_after_call (options : loc) (etp : bool) (p : process) :
  let p' := (init options etp p).2 in
  deref (heap p') options
  = (if etp && bool_decide (_ctx p = None)
     then deref (heap p) options ∖ environ p
     else deref (heap p) options)
  /\ (forall l, l <> options -> heap p' !! l = heap p !! l)
  /\ (etp = false -> heap p' = heap p)
  /\ environ p' = environ p.
Proof.
  destruct (_ctx p) as [c|] eqn:Hctx.
  - rewrite (init_live _ _ _ c Hctx). cbn [snd].
    rewrite bool_decide_false by done. by rewrite andb_false_r.
  - destruct (init_fresh options etp p Hctx) as (h' & -> & Hd & Hfr & Hh).
    cbn [snd]. rewrite bool_decide_true by done. rewrite andb_true_r.
    by destruct etp.
Qed.

(** C3.  In a state without Context, [init] returns, and the options the
    Context was constructed with are the explicit options without the keys
    that are also in the environment when [env_takes_precedence] is true
    (every other key keeps its value), and the explicit options as given
    when it is false (no key is removed). *)
Theorem init_resolved_options (options : loc) (etp : bool) (p : process) :
  _ctx p = None ->
  exists c p',
    init options etp p = (Return tt, p') /\ _ctx p' = Some c
    /\ (etp = true ->
        ctx_options c = deref (heap p) options ∖ environ p
        /\ forall k,
             (is_Some (environ p !! k) -> ctx_options c !! k = None)
             /\ (environ p !! k = None ->
                 ctx_options c !! k = deref (heap p) options !! k))
    /\ (etp = false ->
        ctx_options c = deref (heap p) options
        /\ forall k, is_Some (deref (heap p) options !! k) ->
                     ctx_options c !! k = deref (heap p) options !! k).
Proof.
  intros Hctx.
  destruct (init_fresh options etp p Hctx) as (h' & Hinit & Hd & _).
  eexists _, _. split; [exact Hinit|]. split; [done|].
  simpl. rewrite Hd. split; intros ->.
  - split; [done|]. intros k. rewrite lookup_difference. split.
    + by intros [v ->].
    + by intros ->.
  - done.
Qed.

(** C2, as stated, fails: with [env_takes_precedence] the caller's own dict
    has lost the key ["A"] after the call. *)
Lemma init_mutates_caller_options :
  deref (heap overlap) 0 !! "A" = Some "1"
  /\ (init 0 true overlap).1 = Return tt
  /\ deref (heap (init 0 true overlap).2) 0 !! "A" = None
  /\ deref (heap (init 0 true overlap).2) 0 <> deref (heap overlap) 0.
Proof.
  split; [reflexivity|]. split; [reflexivity|]. split; [reflexivity|].
  intros H. apply (f_equal (fun d => d !! "A")) in H. discriminate H.
Qed.

Lemma init_options_after_call_witness :
  deref (heap (init 0 true overlap).2) 0 = {["B" := "3"]}.
Proof.
  destruct (init_options_after_call 0 true overlap) as [H _].
  rewrite H. apply map_eq. intros k. vm_compute.
  reflexivity.
Defined.

Lemma init_resolved_options_witness :
  exists c p',
    init 0 true overlap = (Return tt, p') /\ _ctx p' = Some c
    /\ ctx_options c !! "A" = None /\ ctx_options c !! "B" = Some "3".
Proof.
  destruct (init_resolved_options 0 true overlap eq_refl)
    as (c & p' & Hinit & Hctx & Ht & _).
  exists c, p'. split; [exact Hinit|]. split; [exact Hctx|].
  destruct (Ht eq_refl) as [-> _]. split; reflexivity.
Defined.

(** ** [_get_ctx], [reset], [get_config] *)

(** C5.  [_get_ctx] always returns; it leaves a Context in [_ctx] and
    returns that one; a second call right after returns the same Context
    and changes nothing.  Without a Context before the call, the one built
    is new (its identity was never handed out) and has empty options; with
    one, it is returned and the state is unchanged. *)
Theorem _get_ctx_idempotent (p : process) :
  exists c p1,
    _get_ctx p = (Return c, p1) /\ _ctx p1 = Some c
    /\ _get_ctx p1 = (Return c, p1)
    /\ match _ctx p with
       | None => ctx_options c = ∅ /\ ctx_id c = created (ucx p)
                 /\ workers (ucx p1) = ctx_id c :: workers (ucx p)
       | Some c0 => c = c0 /\ p1 = p
       end.
Proof.
  destruct (_ctx p) as [c0|] eqn:Hctx.
  - exists c0, p. rewrite (_get_ctx_live p c0 Hctx). done.
  - eexists _, _. split; [by apply _get_ctx_fresh|].
    split; [done|]. split; [|done].
    by apply _get_ctx_live.
Qed.



Section config.

Variable ucx_config : dict -> dict -> dict.

Lemma get_config_fresh (p : process) :
  _ctx p = None -> get_config ucx_config p = core_get_config ucx_config p.
Proof. intros H. unfold get_config, bind, load__ctx. by rewrite H. Qed.

Lemma get_config_live (p : process) (c : Context) :
  _ctx p = Some c -> get_config ucx_config p = ctx_get_config ucx_config c p.
Proof.
  intros H. unfold get_config. unfold bind at 1. unfold load__ctx at 1.
  rewrite H. unfold bind. by rewrite (_get_ctx_live p c H).
Qed.

Lemma get_config_unchanged (p : process) : (get_config ucx_config p).2 = p.
Proof.
  destruct (_ctx p) as [c|] eqn:Hctx.
  - by rewrite (get_config_live p c Hctx).
  - by rewrite (get_config_fresh p Hctx).
Qed.

(** C7.  Without a Context, [get_config] is the static query
    [core.get_config()]: it returns what the engine computes from the
    environment and no options, and the state, still without Context, is
    unchanged.  With a Context, it returns the configuration of that
    Context, the one fixed when it was constructed, and changes nothing. *)
Theorem get_config_by_state (p : process) :
  match _ctx p with
  | None =>
      get_config ucx_config p = core_get_config ucx_config p
      /\ get_config ucx_config p = (Return (ucx_config (environ p) ∅), p)
  | Some c =>
      get_config ucx_config p = ctx_get_config ucx_config c p
      /\ get_config ucx_config p
         = (Return (ucx_config (ctx_environ c) (ctx_options c)), p)
  end.
Proof.
  destruct (_ctx p) as [c|] eqn:Hctx.
  - by rewrite (get_config_live p c Hctx).
  - by rewrite (get_config_fresh p Hctx).
Qed.

End config.

(** ** The operations that delegate to the Context *)

(** C8, as stated, fails: in the state right after import, without a
    Context, none of [progress], [get_ucp_worker] and [create_endpoint]
    raises, and each leaves a Context behind. *)
Lemma delegating_calls_construct_context :
  let p := boot ∅ ∅ [] in
  _ctx p = None
  /\ progress p = (Return false, (_get_ctx p).2)
  /\ is_raise (progress p).1 = false /\ is_Some (_ctx (progress p).2)
  /\ is_raise (get_ucp_worker p).1 = false
  /\ is_Some (_ctx (get_ucp_worker p).2)
  /\ is_raise (create_endpoint "127.0.0.1" 9000 p).1 = false
  /\ is_Some (_ctx (create_endpoint "127.0.0.1" 9000 p).2).
Proof. vm_compute. repeat split; eauto. Qed.

(** C8, as the code has it.  Called without a Context, [progress],
    [get_ucp_worker] and [create_endpoint] first construct one with empty
    options through [_get_ctx], then delegate to it: none of them raises,
    and after each the new Context is the one in [_ctx]. *)
Theorem delegating_calls_autocreate (ip : string) (port : Z) (p : process) :
  _ctx p = None ->
  exists c p1,
    _get_ctx p = (Return c, p1) /\ _ctx p1 = Some c /\ ctx_options c = ∅
    /\ progress p = ctx_progress c p1
    /\ get_ucp_worker p = ctx_get_ucp_worker c p1
    /\ create_endpoint ip port p = ctx_create_endpoint c ip port p1
    /\ is_raise (progress p).1 = false
    /\ is_raise (get_ucp_worker p).1 = false
    /\ is_raise (create_endpoint ip port p).1 = false
    /\ _ctx (progress p).2 = Some c
    /\ _ctx (get_ucp_worker p).2 = Some c
    /\ _ctx (create_endpoint ip port p).2 = Some c.
Proof.
  intros Hctx. pose proof (_get_ctx_fresh p Hctx) as Hget.
  eexists _, _. split; [exact Hget|]. split; [done|]. split; [done|].
  unfold progress, get_ucp_worker, create_endpoint, bind. rewrite Hget.
  split; [done|]. split; [done|]. split; [done|].
  unfold ctx_progress, ctx_create_endpoint, ctx_get_ucp_worker, ret.
  destruct (worker_progress _ _) as [b e] eqn:Hp.
  done.
Qed.

Lemma delegating_calls_autocreate_witness :
  exists c p1,
    _get_ctx (boot ∅ ∅ []) = (Return c, p1)
    /\ progress (boot ∅ ∅ []) = ctx_progress c p1
    /\ _ctx (progress (boot ∅ ∅ [])).2 = Some c.
Proof.
  destruct (delegating_calls_autocreate "127.0.0.1" 9000 (boot ∅ ∅ []) eq_refl)
    as (c & p1 & H1 & _ & _ & H2 & _ & _ & _ & _ & _ & H3 & _).
  by exists c, p1.
Defined.

(** ** What the engine's operations leave alone *)

Lemma same_workers_refl (e : engine) : same_workers e e.
Proof. done. Qed.

Lemma same_workers_trans (e1 e2 e3 : engine) :
  same_workers e1 e2 -> same_workers e2 e3 -> same_workers e1 e3.
Proof. unfold same_workers. intros (?&?&?) (?&?&?). repeat split; congruence. Qed.

Lemma settled_stable_refl (e : engine) : settled_stable e e.
Proof. by intros i o. Qed.

Lemma settled_stable_trans (e1 e2 e3 : engine) :
  settled_stable e1 e2 -> settled_stable e2 e3 -> settled_stable e1 e3.
Proof. intros H12 H23 i o Hi Hs. eauto. Qed.

Ltac frame_refl :=
  split; [apply same_workers_refl | apply settled_stable_refl].

Lemma handle_event_frame (c : nat) (ev : native_event) (e : engine) :
  same_workers e (handle_event c ev e).2
  /\ settled_stable e (handle_event c ev e).2.
Proof.
  destruct ev as [i ok|port]; simpl.
  - destruct (pending e !! i) as [o|] eqn:Hi; [|frame_refl].
    destruct (op_slot o) eqn:Hs; try frame_refl.
    destruct (op_ctx o =? c); [|frame_refl].
    destruct ok; (split; [done|]); intros j o' Hj Hs'; simpl;
      (destruct (decide (i = j)) as [->|Hne];
        [congruence | by rewrite list_lookup_insert_ne]).
  - destruct (List.find _ _); [|frame_refl].
    split; [done|]. by intros j o'.
Qed.

Lemma handle_events_frame (c : nat) (evs : list native_event) (e : engine) :
  same_workers e (handle_events c evs e).2
  /\ settled_stable e (handle_events c evs e).2.
Proof.
  revert e. induction evs as [|ev evs IH]; intros e; simpl; [frame_refl|].
  destruct (handle_event_frame c ev e) as [Hw Hs].
  destruct (handle_event c ev e) as [b e1]. simpl in *.
  destruct (IH e1) as [Hw' Hs'].
  destruct (handle_events c evs e1) as [b' e2]. simpl in *.
  split; [by eapply same_workers_trans | by eapply settled_stable_trans].
Qed.

Lemma worker_progress_frame (c : nat) (e : engine) :
  same_workers e (worker_progress c e).2
  /\ settled_stable e (worker_progress c e).2.
Proof.
  unfold worker_progress. destruct (wire e) as [|evs w]; [frame_refl|].
  apply (handle_events_frame c evs (set_wire w e)).
Qed.

Lemma register_connect_frame (c : nat) (ip : string) (port : Z) (e : engine) :
  same_workers e (register_connect c ip port e).2
  /\ settled_stable e (register_connect c ip port e).2.
Proof.
  split; [done|]. intros i o Hi _. simpl. by apply lookup_app_l_Some.
Qed.

Lemma bind_listener_frame (c cb : nat) (port : option Z) (e : engine) :
  same_workers e (bind_listener c cb port e).2
  /\ settled_stable e (bind_listener c cb port e).2.
Proof.
  unfold bind_listener. destruct (_ && _); [|frame_refl].
  split; [done|]. by intros i o.
Qed.

(** ** One call of the module *)

Lemma delegated_refl (p : process) : delegated p p.
Proof. split; [done|]. frame_refl. Qed.

Lemma step_kind_refl (p : process) : step_kind p p.
Proof. split; [apply settled_stable_refl|]. left. done. Qed.

Lemma step_kind_delegated (p p1 p2 : process) :
  step_kind p p1 -> delegated p1 p2 -> step_kind p p2.
Proof.
  intros [Hs Hk] (Hc & (Hw & Hpk & Hcr) & Hs').
  split; [by eapply settled_stable_trans|].
  destruct Hk as [[Hc1 (Hw1 & Hpk1 & Hcr1)]
                 |[[Hn (c & Hc1 & Hid & Hw1 & Hpk1 & Hcr1)]
                  |[Hn (c & Hc1 & Hw1 & Hpk1 & Hcr1)]]].
  - left. unfold same_workers. repeat split; congruence.
  - right; left. split; [done|]. exists c. repeat split; congruence.
  - right; right. split; [congruence|]. exists c.
    unfold same_workers. repeat split; congruence.
Qed.

Lemma _get_ctx_step (p : process) :
  exists c p1, _get_ctx p = (Return c, p1) /\ _ctx p1 = Some c
               /\ step_kind p p1.
Proof.
  destruct (_ctx p) as [c|] eqn:Hctx.
  - exists c, p. split; [by apply _get_ctx_live|]. split; [done|].
    apply step_kind_refl.
  - eexists _, _. split; [by apply _get_ctx_fresh|]. split; [done|].
    split; [by intros i o|]. right; left. split; [done|].
    eexists. split; [done|]. done.
Qed.

Lemma init_step (options : loc) (etp : bool) (p : process) :
  step_kind p (init options etp p).2.
Proof.
  destruct (_ctx p) as [c|] eqn:Hctx.
  - rewrite (init_live _ _ _ c Hctx). apply step_kind_refl.
  - destruct (init_fresh options etp p Hctx) as (h' & -> & _).
    split; [by intros i o|]. right; left. split; [done|].
    eexists. split; [done|]. done.
Qed.

Lemma reset_step (p : process) : step_kind p (reset p).2.
Proof.
  destruct (_ctx p) as [c|] eqn:Hctx.
  - rewrite (reset_rebinds p). split; [apply settled_stable_refl|].
    right; right. split; [done|]. by exists c.
  - rewrite (reset_fresh p Hctx). apply step_kind_refl.
Qed.

Lemma ctx_progress_delegated (c : Context) (p : process) :
  delegated p (ctx_progress c p).2.
Proof.
  unfold ctx_progress.
  destruct (worker_progress_frame (ctx_id c) (ucx p)) as [Hw Hs].
  destruct (worker_progress _ _) as [b e]. done.
Qed.

Lemma ctx_create_endpoint_delegated (c : Context) (ip : string) (port : Z)
    (p : process) :
  delegated p (ctx_create_endpoint c ip port p).2.
Proof.
  unfold ctx_create_endpoint.
  destruct (register_connect_frame (ctx_id c) ip port (ucx p)) as [Hw Hs].
  destruct (register_connect _ _ _ _) as [b e]. done.
Qed.

Lemma ctx_create_listener_delegated (c : Context) (cb : nat)
    (port : option Z) (p : process) :
  delegated p (ctx_create_listener c cb port p).2.
Proof.
  unfold ctx_create_listener.
  destruct (bind_listener_frame (ctx_id c) cb port (ucx p)) as [Hw Hs].
  destruct (bind_listener _ _ _ _) as [b e]. done.
Qed.

Lemma bind_ret_snd {A B} (m : M A) (f : A -> B) (p : process) :
  (bind m (fun x => ret (f x)) p).2 = (m p).2.
Proof. unfold bind, ret. by destruct (m p) as [[a|e] p']. Qed.

Lemma bind__get_ctx_step {A} (k : Context -> M A) (p : process) :
  (forall c p1, delegated p1 (k c p1).2) ->
  step_kind p (bind _get_ctx k p).2.
Proof.
  intros Hk. destruct (_get_ctx_step p) as (c & p1 & Hget & _ & Hstep).
  unfold bind. rewrite Hget. by eapply step_kind_delegated.
Qed.

Section runs.

Variable ucx_config : dict -> dict -> dict.

Lemma run_call_step (c : call) (p : process) :
  step_kind p (run_call ucx_config c p).2.
Proof.
  destruct c; unfold run_call; rewrite bind_ret_snd.
  - apply init_step.
  - destruct (_get_ctx_step p) as (c & p1 & -> & _ & Hstep). done.
  - apply bind__get_ctx_step. intros; apply ctx_create_listener_delegated.
  - apply bind__get_ctx_step. intros; apply ctx_create_endpoint_delegated.
  - apply bind__get_ctx_step. intros; apply ctx_progress_delegated.
  - apply bind__get_ctx_step. intros c p1. apply delegated_refl.
  - rewrite get_config_unchanged. apply step_kind_refl.
  - apply reset_step.
Qed.

Lemma run_call_keeps_context (call : call) (p : process) (c : Context) :
  is_reset call = false -> _ctx p = Some c ->
  _ctx (run_call ucx_config call p).2 = Some c.
Proof.
  intros Hr Hctx. pose proof (_get_ctx_live p c Hctx) as Hget.
  destruct call; try discriminate Hr; unfold run_call; rewrite bind_ret_snd.
  - by rewrite (init_live _ _ _ c Hctx).
  - by rewrite Hget.
  - unfold create_listener, bind. rewrite Hget.
    by destruct (ctx_create_listener_delegated c callback_func port p) as [-> _].
  - unfold create_endpoint, bind. rewrite Hget.
    by destruct (ctx_create_endpoint_delegated c ip_address port p) as [-> _].
  - unfold progress, bind. rewrite Hget.
    by destruct (ctx_progress_delegated c p) as [-> _].
  - unfold get_ucp_worker, bind. by rewrite Hget.
  - by rewrite get_config_unchanged.
Qed.

Lemma run_call_budget (c : call) (p : process) :
  construction_budget (run_call ucx_config c p).2
  <= construction_budget p + (if is_reset c then 1 else 0).
Proof.
  unfold construction_budget.
  destruct (run_call_step c p) as [_ Hk].
  destruct Hk as [[Hc (_ & _ & Hcr)]
                 |[[Hn (c1 & Hc1 & _ & _ & _ & Hcr)]
                  |[Hn (c1 & Hc1 & _ & _ & Hcr)]]].
  - rewrite Hc, Hcr. lia.
  - rewrite Hn, Hc1, Hcr. lia.
  - rewrite Hn, Hc1, Hcr. destruct (is_reset c) eqn:Hr; [lia|].
    pose proof (run_call_keeps_context c p c1 Hr Hc1). congruence.
Qed.

Lemma run_budget (cs : list call) (p : process) :
  construction_budget (run ucx_config cs p)
  <= construction_budget p + count_resets cs.
Proof.
  revert p. induction cs as [|c cs IH]; intros p; simpl.
  - unfold count_resets. simpl. lia.
  - pose proof (IH (run_call ucx_config c p).2) as H.
    pose proof (run_call_budget c p) as H1.
    unfold count_resets in *. simpl. destruct (is_reset c); simpl; lia.
Qed.




End runs.

(** ** One Context at a time *)


Section sequences.

Variable ucx_config : dict -> dict -> dict.


End sequences.

(** ** Pending Operations by owner *)






(** ** Ownership of Pending Operations over call sequences *)










Section reachable.

Variable ucx_config : dict -> dict -> dict.




End reachable.


(** ** The Pending Operations of a Context that was dropped *)












Section dropped_context.

Variable ucx_config : dict -> dict -> dict.




End dropped_context.



(** A pending connect is resolved by the progress step that sees it
    finish. *)
Example progress_resolves_connect :
  let p := run union_config [CreateEndpoint "10.0.0.1" 9000; Progress]
             (boot ∅ ∅ eager_net) in
  slot_at (ucx p) 0 = Some (Completed 0)
  /\ endpoints (ucx p)
     = [{| ep_ctx := 0; ep_remote := Some ("10.0.0.1", 9000%Z);
           ep_open := true |}].
Proof. split; reflexivity. Qed.

(** The same network after a [reset]: the connect of the dropped Context
    stays pending although the network reports it twice, since the
    progress steps are made on the new Context, whose own connect is
    settled. *)
Example dropped_connect_stays_pending :
  let p := run union_config
             [CreateEndpoint "10.0.0.1" 9000; Reset;
              CreateEndpoint "10.0.0.1" 9000; Progress; Progress]
             (boot ∅ ∅ eager_net) in
  slot_at (ucx p) 0 = Some Pending
  /\ slot_at (ucx p) 1 = Some Failed
  /\ endpoints (ucx p) = []
  /\ workers (ucx p) = [1; 0].
Proof. repeat split; reflexivity. Qed.

(** * Further properties of the module *)

(** ** First use and [init] *)

(** X1.  [create_listener] goes through [_get_ctx] before it asks for the
    Listener: it uses the live Context, or builds one with empty options
    when there is none, and that Context is in [_ctx] after the call
    whether the Listener was created or the call raised. *)
Theorem create_listener_leaves_context (callback_func : nat)
    (port : option Z) (p : process) :
  exists c p1,
    _get_ctx p = (Return c, p1)
    /\ create_listener callback_func port p
       = ctx_create_listener c callback_func port p1
    /\ _ctx (create_listener callback_func port p).2 = Some c
    /\ match _ctx p with
       | Some c0 => c = c0 /\ p1 = p
       | None => ctx_options c = ∅ /\ ctx_id c = created (ucx p)
       end.
Proof.
  destruct (_get_ctx_step p) as (c & p1 & Hget & Hc1 & _).
  exists c, p1. split; [exact Hget|].
  assert (Hcl : create_listener callback_func port p
                = ctx_create_listener c callback_func port p1).
  { unfold create_listener, bind. by rewrite Hget. }
  split; [exact Hcl|]. split.
  - rewrite Hcl.
    destruct (ctx_create_listener_delegated c callback_func port p1) as [-> _].
    exact Hc1.
  - destruct (_ctx p) as [c0|] eqn:Hctx.
    + rewrite (_get_ctx_live p c0 Hctx) in Hget. by injection Hget as <- <-.
    + rewrite (_get_ctx_fresh p Hctx) in Hget. by injection Hget as <- <-.
Qed.

Section first_use.

Variable ucx_config : dict -> dict -> dict.

Lemma run_call_uses_ctx (c : call) (p : process) :
  uses_ctx c = true ->
  exists c1 p1, _get_ctx p = (Return c1, p1)
                /\ _ctx (run_call ucx_config c p).2 = Some c1.
Proof.
  intros Hu. destruct (_get_ctx_step p) as (c1 & p1 & Hget & Hc1 & _).
  exists c1, p1. split; [exact Hget|].
  destruct c; try discriminate Hu; unfold run_call; rewrite bind_ret_snd.
  - by rewrite Hget.
  - unfold create_listener, bind. rewrite Hget.
    by destruct (ctx_create_listener_delegated c1 callback_func port p1) as [-> _].
  - unfold create_endpoint, bind. rewrite Hget.
    by destruct (ctx_create_endpoint_delegated c1 ip_address port p1) as [-> _].
  - unfold progress, bind. rewrite Hget.
    by destruct (ctx_progress_delegated c1 p1) as [-> _].
  - unfold get_ucp_worker, bind. by rewrite Hget.
Qed.

(** X2.  Once [_get_ctx], [create_listener], [progress] or
    [get_ucp_worker] has been called, or the coroutine of [create_endpoint]
    has been run to its first wait, in whatever state and whatever came
    back, a call of [init] raises the already-initiated RuntimeError and
    changes nothing: the options it was given are not used.  The call of
    [create_endpoint] alone, which only makes the coroutine, leaves the
    state as it is, and [init] after it does what it would have done
    without it. *)
Theorem init_after_first_use_raises (c : call) (options : loc) (etp : bool)
    (p : process) :
  (uses_ctx c = true ->
   init options etp (run_call ucx_config c p).2
   = (Raise (RuntimeError already_initiated), (run_call ucx_config c p).2))
  /\ (forall ip port,
        create_endpoint_call ip port p = (Return (create_endpoint ip port), p)
        /\ init options etp (create_endpoint_call ip port p).2
           = init options etp p).
Proof.
  split; [|done].
  intros Hu. destruct (run_call_uses_ctx c p Hu) as (c1 & p1 & _ & Hc1).
  by apply init_live with c1.
Qed.

Lemma run_call_keeps_workers (call : call) (p : process) (c : Context) :
  is_reset call = false -> _ctx p = Some c ->
  workers (ucx (run_call ucx_config call p).2) = workers (ucx p).
Proof.
  intros Hr Hctx.
  pose proof (run_call_keeps_context ucx_config call p c Hr Hctx) as Hc.
  destruct (run_call_step ucx_config call p) as [_ Hk].
  destruct Hk as [[_ (Hw & _)]|[[Hn _]|[Hn _]]]; [exact Hw|congruence..].
Qed.

(** X3.  A Context, once in [_ctx], stays there through every sequence of
    calls that has no [reset] in it: no other function of the module
    replaces or drops it, and the live Workers stay the same. *)
Theorem context_kept_until_reset (cs : list call) (p : process)
    (c : Context) :
  count_resets cs = 0 -> _ctx p = Some c ->
  _ctx (run ucx_config cs p) = Some c
  /\ workers (ucx (run ucx_config cs p)) = workers (ucx p).
Proof.
  revert p. induction cs as [|call cs IH]; intros p Hn Hctx; simpl; [done|].
  unfold count_resets in Hn. simpl in Hn.
  destruct (is_reset call) eqn:Hr; [discriminate Hn|].
  destruct (IH (run_call ucx_config call p).2 Hn) as [Hc Hw].
  { by apply run_call_keeps_context. }
  split; [exact Hc|]. rewrite Hw. by apply run_call_keeps_workers with c.
Qed.

End first_use.

(** ** What [reset] forgets and what it does not *)

Lemma reset_store (p : process) :
  _ctx (reset p).2 = None /\ heap (reset p).2 = heap p
  /\ environ (reset p).2 = environ p
  /\ created (ucx (reset p).2) = created (ucx p).
Proof.
  destruct (_ctx p) as [c|] eqn:Hctx.
  - by rewrite (reset_rebinds p).
  - by rewrite (reset_fresh p Hctx).
Qed.

Lemma difference_twice (d env : dict) : (d ∖ env) ∖ env = d ∖ env.
Proof.
  apply map_eq; intros k. rewrite !lookup_difference.
  by destruct (env !! k).
Qed.

(** X5.  The deletion that [init] does with [env_takes_precedence] outlives
    the Context: after [init(options, True)], [reset()] and a second
    [init] with the same dict, the second Context is constructed without
    the keys that are in the environment, also when the second call passes
    [env_takes_precedence=False]. *)
Theorem deleted_options_stay_deleted (options : loc) (etp2 : bool)
    (p : process) :
  _ctx p = None ->
  exists c p3,
    init options etp2 (reset (init options true p).2).2 = (Return tt, p3)
    /\ _ctx p3 = Some c
    /\ ctx_options c = deref (heap p) options ∖ environ p
    /\ deref (heap p3) options = deref (heap p) options ∖ environ p.
Proof.
  intros Hctx.
  destruct (init_fresh options true p Hctx) as (h1 & -> & Hd1 & _).
  cbn [snd]. set (p1 := set__ctx _ _).
  destruct (reset_store p1) as (Hc2 & Hh2 & He2 & _).
  destruct (init_fresh options etp2 _ Hc2) as (h3 & -> & Hd3 & _).
  eexists _, _. split; [reflexivity|]. split; [reflexivity|].
  assert (Hd : deref h3 options = deref (heap p) options ∖ environ p).
  { rewrite Hd3, Hh2, He2. change (heap p1) with h1.
    change (environ p1) with (environ p). rewrite Hd1.
    destruct etp2; [apply difference_twice|done]. }
  split; exact Hd.
Qed.

Section after_reset.

Variable ucx_config : dict -> dict -> dict.


(** X6.  After [reset], [get_config] is the static query again: it returns
    what the engine computes from the environment alone, whatever options
    the Context before had, and it leaves the module without Context. *)
Theorem get_config_after_reset (p : process) :
  get_config ucx_config (reset p).2
  = (Return (ucx_config (environ p) ∅), (reset p).2).
Proof.
  destruct (reset_store p) as (Hnone & _ & He & _).
  rewrite (get_config_fresh ucx_config _ Hnone).
  unfold core_get_config. by rewrite He.
Qed.

End after_reset.

(** ** Counting constructions; the caller's dicts *)

Lemma _get_ctx_store (p : process) :
  heap (_get_ctx p).2 = heap p /\ environ (_get_ctx p).2 = environ p.
Proof.
  destruct (_ctx p) as [c|] eqn:Hctx.
  - by rewrite (_get_ctx_live p c Hctx).
  - by rewrite (_get_ctx_fresh p Hctx).
Qed.

Lemma init_store (options : loc) (etp : bool) (p : process) :
  environ (init options etp p).2 = environ p
  /\ (etp = false -> heap (init options etp p).2 = heap p).
Proof.
  destruct (_ctx p) as [c|] eqn:Hctx.
  - by rewrite (init_live _ _ _ c Hctx).
  - destruct (init_fresh options etp p Hctx) as (h' & -> & _ & _ & Hh).
    split; [done|]. intros Hf. by rewrite <- (Hh Hf).
Qed.

Lemma bind__get_ctx_store {A} (k : Context -> M A) (p : process) :
  (forall c p1, heap (k c p1).2 = heap p1 /\ environ (k c p1).2 = environ p1) ->
  heap (bind _get_ctx k p).2 = heap p
  /\ environ (bind _get_ctx k p).2 = environ p.
Proof.
  intros Hk. destruct (_get_ctx_step p) as (c & p1 & Hget & _).
  destruct (_get_ctx_store p) as [Hh He]. rewrite Hget in Hh, He.
  unfold bind. rewrite Hget. destruct (Hk c p1) as [-> ->]. done.
Qed.

Section whole_runs.

Variable ucx_config : dict -> dict -> dict.

Lemma run_call_store (c : call) (p : process) :
  environ (run_call ucx_config c p).2 = environ p
  /\ (deletes_keys c = false -> heap (run_call ucx_config c p).2 = heap p).
Proof.
  destruct c; unfold run_call; rewrite bind_ret_snd.
  - destruct (init_store options env_takes_precedence p) as [He Hh].
    split; [exact He|]. intros Hd. apply Hh.
    by destruct env_takes_precedence.
  - by destruct (_get_ctx_store p) as [-> ->].
  - destruct (bind__get_ctx_store
                (fun c => ctx_create_listener c callback_func port) p)
      as [Hh He]; [|by split].
    intros c p1. unfold ctx_create_listener.
    by destruct (bind_listener _ _ _ _).
  - destruct (bind__get_ctx_store
                (fun c => ctx_create_endpoint c ip_address port) p)
      as [Hh He]; [|by split].
    intros c p1. unfold ctx_create_endpoint.
    by destruct (register_connect _ _ _ _).
  - destruct (bind__get_ctx_store ctx_progress p) as [Hh He]; [|by split].
    intros c p1. unfold ctx_progress. by destruct (worker_progress _ _).
  - destruct (bind__get_ctx_store ctx_get_ucp_worker p) as [Hh He];
      [done|by split].
  - by rewrite get_config_unchanged.
  - by destruct (reset_store p) as (_ & -> & -> & _).
Qed.

(** X8.  No call of the module changes [os.environ], and the only call
    that changes a dict of the caller is [init] with
    [env_takes_precedence]: through any sequence of calls without one, every
    dict the caller holds is as it was. *)
Theorem only_init_deletes_keys (cs : list call) (p : process) :
  environ (run ucx_config cs p) = environ p
  /\ (existsb deletes_keys cs = false -> heap (run ucx_config cs p) = heap p).
Proof.
  revert p. induction cs as [|c cs IH]; intros p; simpl; [done|].
  destruct (IH (run_call ucx_config c p).2) as [He Hh].
  destruct (run_call_store c p) as [He1 Hh1].
  split; [by rewrite He|].
  intros [Hc Hcs]%orb_false_iff. by rewrite Hh, Hh1.
Qed.

(** X7.  From import on, the module constructs at most one Context more
    than it was [reset]: a sequence of calls with [n] calls of [reset]
    constructs at most [n + 1] Contexts, and at most [n] when it ends
    without Context. *)
Theorem constructions_bounded_by_resets (env : dict) (h : gmap nat dict)
    (net : list (list native_event)) (cs : list call) :
  let p := run ucx_config cs (boot env h net) in
  created (ucx p) <= S (count_resets cs)
  /\ (_ctx p = None -> created (ucx p) <= count_resets cs).
Proof.
  intros p. pose proof (run_budget ucx_config cs (boot env h net)) as H.
  fold p in H. unfold construction_budget in H. simpl in H.
  split; [lia|]. intros Hn. rewrite Hn in H. lia.
Qed.

End whole_runs.

(** ** [get_config] before [init]; instances *)

Section before_init.

Variable ucx_config : dict -> dict -> dict.

(** X9.  [get_config] does not initialise: called any number of times
    without a Context, it leaves the module without one, and a call of
    [init] after it returns and builds the Context from the options it is
    given. *)
Theorem init_after_get_config (n : nat) (options : loc) (etp : bool)
    (p : process) :
  _ctx p = None ->
  run ucx_config (replicate n GetConfig) p = p
  /\ exists c p',
       init options etp (run ucx_config (replicate n GetConfig) p)
       = (Return tt, p')
       /\ _ctx p' = Some c
       /\ ctx_options c = (if etp then deref (heap p) options ∖ environ p
                           else deref (heap p) options).
Proof.
  intros Hctx.
  assert (Hrun : run ucx_config (replicate n GetConfig) p = p).
  { induction n as [|n IH]; simpl; [done|].
    unfold run_call. by rewrite bind_ret_snd, get_config_unchanged. }
  split; [exact Hrun|]. rewrite Hrun.
  destruct (init_fresh options etp p Hctx) as (h' & Hinit & Hd & _).
  eexists _, _. split; [exact Hinit|]. split; [done|]. exact Hd.
Qed.

End before_init.

Lemma init_after_first_use_raises_witness :
  init 0 true (run_call union_config Progress overlap).2
  = (Raise (RuntimeError already_initiated),
     (run_call union_config Progress overlap).2).
Proof.
  destruct (init_after_first_use_raises union_config Progress 0 true overlap)
    as [H _].
  exact (H eq_refl).
Defined.

Lemma context_kept_until_reset_witness :
  _ctx (run union_config
          [Progress; CreateListener 7 None; GetConfig; Init 0 true]
          two_pending)
  = Some {| ctx_id := 0; ctx_options := ∅; ctx_environ := ∅ |}.
Proof.
  apply (context_kept_until_reset union_config
           [Progress; CreateListener 7 None; GetConfig; Init 0 true]
           two_pending _ eq_refl eq_refl).
Defined.


Lemma deleted_options_stay_deleted_witness :
  exists c p3,
    init 0 false (reset (init 0 true overlap).2).2 = (Return tt, p3)
    /\ _ctx p3 = Some c /\ ctx_options c !! "A" = None
    /\ ctx_options c !! "B" = Some "3".
Proof.
  destruct (deleted_options_stay_deleted 0 false overlap eq_refl)
    as (c & p3 & Hinit & Hc & Ho & _).
  exists c, p3. split; [exact Hinit|]. split; [exact Hc|].
  rewrite Ho. split; reflexivity.
Defined.

Lemma init_after_get_config_witness :
  exists c p',
    init 0 true (run union_config (replicate 3 GetConfig) overlap)
    = (Return tt, p')
    /\ _ctx p' = Some c /\ ctx_options c !! "A" = None.
Proof.
  destruct (init_after_get_config union_config 3 0 true overlap eq_refl)
    as (_ & c & p' & Hinit & Hc & Ho).
  exists c, p'. split; [exact Hinit|]. split; [exact Hc|].
  rewrite Ho. reflexivity.
Defined.
